(** * Vision: an in-process metrics aggregator (src/src/main.ts)

    A shallow embedding of the [Vision] class and of the types it works on
    (src/unnamed/part_000, imported by main.ts as ./types/types), with the
    properties of its update operations, of the bounded log of recent errors
    and of the snapshot [getVisionStats].

    Modelling choices.
    - A JavaScript [number] is an IEEE-754 binary64 value.  The counters of
      [Stats] only ever hold small non-negative integers, which binary64
      represents exactly, and the code guards each division by a zero test,
      so numbers are idealised as exact rationals ([Q]).  Rounding, NaN and
      the infinities are outside this idealisation: a statement about a
      latency therefore names the expression the code evaluates, the
      durations added one at a time in call order ([running_sum]), and not
      their sum, which differs from it in binary64.  Module [Binary64] holds
      the arithmetic of the code on Rocq's primitive binary64 floats: the
      derived fields of the snapshot and the two accumulating methods.
    - [Stats.lastErrors] is a JavaScript array, that is a reference to a
      mutable object.  Arrays live in a store ([arrays]) and [Stats] holds a
      location, so that handing the array to a caller is handing over the
      location.  An [ErrorLog] is never written after its creation and is
      kept as a value.
    - The methods mutate [this.stats] in place; they are written in a small
      monad of state and thrown reasons over [World].  A method runs to its
      end without interleaving: [getVisionStats] is given the three system
      queries as they have settled, and reads [this.stats] after them, as
      the code does.
    - [new Date()], the settled results of the three system queries and the
      results of [exec] are inputs of the environment: they are arguments. *)

From Stdlib Require Import ZArith QArith Lia Lqa PrimFloat FloatOps SpecFloat.
From stdpp Require Import base option list gmap strings.

Local Open Scope Q_scope.

(** ** Numbers *)

Definition number : Type := Q.

(** [x === y] on numbers. *)
Definition strict_eq (x y : number) : bool := Qeq_bool x y.

(** ** The data model (types.ts) *)

(** A [Date] is its time value, milliseconds since the epoch. *)
Definition Date : Type := Z.

(** A location of the store of arrays. *)
Definition loc : Type := positive.

(** The server error model. *)
Record ErrorLog : Type := {
  timestamp : Date;
  method : string;
  path : string;
  error : string;
}.

(** A model for monitoring the application; [lastErrors : Array<ErrorLog>] is
    the location of the array. *)
Record Stats : Type := {
  requestCount : number;
  errorCount : number;
  totalLatency : number;
  dbQueryCount : number;
  dbErrorCount : number;
  dbTotalLatency : number;
  lastErrors : loc;
}.

(** The three groups of [MonitoringResponse]. *)
Module Requests.
Record t : Type := {
  total : number;
  errors : number;
  successRate : number;
  avgLatencyMs : number;
}.
End Requests.

Module Database.
Record t : Type := {
  totalQueries : number;
  errors : number;
  avgLatencyMs : number;
}.
End Database.

Module System.
Record t : Type := {
  cpuUsage : number;
  memoryUsage : number;
  networkRecv : number;
}.
End System.

(** A model for the vision monitoring response.  The field [lastErrors?] is
    optional: [None] is an absent field, [Some l] a present one holding the
    array at [l]. *)
Module MonitoringResponse.
Record t : Type := {
  requests : Requests.t;
  database : Database.t;
  system : System.t;
  lastErrors : option loc;
}.
End MonitoringResponse.

(** The part of an [Error] object the code reads. *)
Record Error : Type := { message : string }.

(** ** The state the methods run in *)

(** [arrays] is the store of [Array<ErrorLog>] objects, [stats] is
    [this.stats] of the one [Vision] object, [console] is what
    [console.error] has printed, oldest line first. *)
Record World : Type := {
  arrays : gmap loc (list ErrorLog);
  stats : Stats;
  console : list string;
}.

(** How a promise settles.  It is also how a call ends: by returning a value
    or by throwing, which for an [async] method are the fulfilment and the
    rejection of the promise it returns. *)
Inductive Settled (A : Type) : Type :=
  | Resolved (value : A)
  | Rejected (reason : string).
Arguments Resolved {A} value.
Arguments Rejected {A} reason.

(** A computation that reads and writes the [World] and ends with an [A] or
    with a thrown reason. *)
Definition Run (A : Type) : Type := World → Settled A * World.

#[global] Instance Run_ret : MRet Run := λ A x w, (Resolved x, w).

(** What is thrown by [m] is thrown by [m; f]: the rest is not run. *)
#[global] Instance Run_bind : MBind Run :=
  λ A B f m w,
    match m w with
    | (Resolved x, w') => f x w'
    | (Rejected reason, w') => (Rejected reason, w')
    end.

Definition exec {A} (m : Run A) (w : World) : World := (m w).2.
Definition eval {A} (m : Run A) (w : World) : Settled A := (m w).1.

(** Sequencing of two statements. *)
Definition seq {A} (m : Run unit) (k : Run A) : Run A := m ≫= λ _, k.
Notation "m ;;; k" := (seq m k) (at level 100, k at level 200, right associativity).

(** Reading [this.stats]. *)
Definition this_stats : Run Stats := λ w, (Resolved (stats w), w).

(** An assignment to a field of [this.stats]. *)
Definition update_stats (f : Stats → Stats) : Run unit :=
  λ w, (Resolved tt, {| arrays := arrays w; stats := f (stats w); console := console w |}).

Definition set_requestCount (f : number → number) (s : Stats) : Stats :=
  {| requestCount := f (requestCount s); errorCount := errorCount s;
     totalLatency := totalLatency s; dbQueryCount := dbQueryCount s;
     dbErrorCount := dbErrorCount s; dbTotalLatency := dbTotalLatency s;
     lastErrors := lastErrors s |}.

Definition set_errorCount (f : number → number) (s : Stats) : Stats :=
  {| requestCount := requestCount s; errorCount := f (errorCount s);
     totalLatency := totalLatency s; dbQueryCount := dbQueryCount s;
     dbErrorCount := dbErrorCount s; dbTotalLatency := dbTotalLatency s;
     lastErrors := lastErrors s |}.

Definition set_totalLatency (f : number → number) (s : Stats) : Stats :=
  {| requestCount := requestCount s; errorCount := errorCount s;
     totalLatency := f (totalLatency s); dbQueryCount := dbQueryCount s;
     dbErrorCount := dbErrorCount s; dbTotalLatency := dbTotalLatency s;
     lastErrors := lastErrors s |}.

Definition set_dbQueryCount (f : number → number) (s : Stats) : Stats :=
  {| requestCount := requestCount s; errorCount := errorCount s;
     totalLatency := totalLatency s; dbQueryCount := f (dbQueryCount s);
     dbErrorCount := dbErrorCount s; dbTotalLatency := dbTotalLatency s;
     lastErrors := lastErrors s |}.

Definition set_dbErrorCount (f : number → number) (s : Stats) : Stats :=
  {| requestCount := requestCount s; errorCount := errorCount s;
     totalLatency := totalLatency s; dbQueryCount := dbQueryCount s;
     dbErrorCount := f (dbErrorCount s); dbTotalLatency := dbTotalLatency s;
     lastErrors := lastErrors s |}.

Definition set_dbTotalLatency (f : number → number) (s : Stats) : Stats :=
  {| requestCount := requestCount s; errorCount := errorCount s;
     totalLatency := totalLatency s; dbQueryCount := dbQueryCount s;
     dbErrorCount := dbErrorCount s; dbTotalLatency := f (dbTotalLatency s);
     lastErrors := lastErrors s |}.

(** *** Arrays

    The operations of [Array.prototype] the code uses, on the array at a
    location.  A location always holds an array in a JavaScript heap; at a
    location that holds none these operations read length 0 and write
    nothing. *)

(** [a.length] *)
Definition array_length (l : loc) : Run nat :=
  λ w, (Resolved (length (default [] (arrays w !! l))), w).

(** A write to the array at [l]: its elements become [f] of what they were. *)
Definition array_update (l : loc) (f : list ErrorLog → list ErrorLog) : Run unit :=
  λ w, (Resolved tt, {| arrays := alter f l (arrays w); stats := stats w; console := console w |}).

(** [a.shift()]: removes the element at index 0 (the result is not used). *)
Definition array_shift (l : loc) : Run unit := array_update l tail.

(** [a.push(x)]: appends [x] (the result is not used). *)
Definition array_push (l : loc) (x : ErrorLog) : Run unit :=
  array_update l (λ a, a ++ [x]).

(** [console.error(msg)] *)
Definition console_error (msg : string) : Run unit :=
  λ w, (Resolved tt, {| arrays := arrays w; stats := stats w; console := console w ++ [msg] |}).

(** ** class Vision *)

(** The constructor: [this.stats] gets zero counters and a new empty array,
    allocated at a location the store [h] does not use. *)
Definition constructor (h : gmap loc (list ErrorLog)) (out : list string) : World :=
  let l := fresh (dom h) in
  {| arrays := <[l := []]> h;
     stats := {| requestCount := 0; errorCount := 0; totalLatency := 0;
                 dbQueryCount := 0; dbErrorCount := 0; dbTotalLatency := 0;
                 lastErrors := l |};
     console := out |}.

(** [new Vision()] in an empty store. *)
Definition new_Vision : World := constructor ∅ [].

(** VisionRequest request tracking. *)
Definition visionRequest (duration : number) : Run unit :=
  update_stats (set_requestCount (λ n, n + 1)) ;;;
  update_stats (set_totalLatency (λ t, t + duration)).

(** Truthiness of an optional string argument: [undefined] and the empty
    string are falsy. *)
Definition truthy (s : option string) : bool :=
  match s with
  | Some EmptyString => false
  | Some _ => true
  | None => false
  end.

(** [s ? s : ''] *)
Definition or_empty (s : option string) : string :=
  if truthy s then default EmptyString s else EmptyString.

(** VisionError error tracking; [now] is the value of [new Date()]. *)
Definition visionError (now : Date) (err : Error) (method path : option string)
  : Run unit :=
  update_stats (set_errorCount (λ n, n + 1)) ;;;
  let errLog := {| timestamp := now;
                   method := or_empty method;
                   path := or_empty path;
                   error := message err |} in
  s ← this_stats;
  len ← array_length (lastErrors s);
  (* Limit the number of recent errors to 10 *)
  (if (10 <=? len)%nat then array_shift (lastErrors s) else mret tt) ;;;
  array_push (lastErrors s) errLog.

(** VisionDBQuery tracking a database request. *)
Definition visionDBQuery (duration : number) : Run unit :=
  update_stats (set_dbQueryCount (λ n, n + 1)) ;;;
  update_stats (set_dbTotalLatency (λ t, t + duration)).

(** VisionDBError tracking a DB error. *)
Definition visionDBError : Run unit :=
  update_stats (set_dbErrorCount (λ n, n + 1)).

(** *** The system queries

    [getCPUUsage], [getMemoryUsage] and [getNetworkStats] return promises.
    A promise is modelled by how it settles. *)

(** What [exec] passes to its callback: the error rendered as a string
    ([None] for [null]) and the standard output. *)
Record ExecResult : Type := {
  exec_error : option string;
  stdout : string;
}.

(** What the host answers to the three queries: the [top] and [ifstat]
    pipelines, [os.totalmem()] and [os.freemem()]. *)
Record Host : Type := {
  top : ExecResult;
  totalmem : number;
  freemem : number;
  ifstat : ExecResult;
}.

Section HostQueries.

(** The built-in [parseFloat]. *)
Variable parseFloat : string → number.

(** The percentage of CPU usage. *)
Definition getCPUUsage (h : Host) : Settled number :=
  match exec_error (top h) with
  | Some error => Rejected ("Failed to get CPU usage: " +:+ error)
  | None => Resolved (parseFloat (stdout (top h)))
  end.

(** Virtual memory usage. *)
Definition getMemoryUsage (h : Host) : Settled number :=
  let totalMemory := totalmem h in
  let freeMemory := freemem h in
  let usedMemory := totalMemory - freeMemory in
  Resolved ((usedMemory / totalMemory) * 100).

(** Network interface statistics, in megabytes. *)
Definition getNetworkStats (h : Host) : Settled number :=
  match exec_error (ifstat h) with
  | Some error => Rejected ("Failed to get network stats: " +:+ error)
  | None => Resolved (parseFloat (stdout (ifstat h)) / (1024 * 1024))
  end.

End HostQueries.

(** [await p.catch(handler)]: the value of [p], or what the handler returns
    for the reason [p] was rejected with. *)
Definition catch {A} (p : Settled A) (handler : string → Run A) : Run A :=
  match p with
  | Resolved value => mret value
  | Rejected err => handler err
  end.

(** The object [getVisionStats] returns, from [this.stats] and the three
    system metrics. *)
Definition response (s : Stats) (cpuUsage memoryUsage networkRecv : number)
  : MonitoringResponse.t :=
  {|
    MonitoringResponse.requests := {|
      Requests.total := requestCount s;
      Requests.errors := errorCount s;
      Requests.successRate :=
        if strict_eq (requestCount s) 0
        then 0
        else ((requestCount s - errorCount s) / requestCount s) * 100;
      Requests.avgLatencyMs :=
        if strict_eq (requestCount s) 0
        then 0
        else totalLatency s / requestCount s;
    |};
    MonitoringResponse.database := {|
      Database.totalQueries := dbQueryCount s;
      Database.errors := dbErrorCount s;
      Database.avgLatencyMs :=
        if strict_eq (dbQueryCount s) 0
        then 0
        else dbTotalLatency s / dbQueryCount s;
    |};
    MonitoringResponse.system := {|
      System.cpuUsage := cpuUsage;
      System.memoryUsage := memoryUsage;
      System.networkRecv := networkRecv;
    |};
    MonitoringResponse.lastErrors := Some (lastErrors s);
  |}.

(** GetVisionStats getting statistics; [cpu], [memory] and [network] are the
    settled promises of [this.getCPUUsage()], [this.getMemoryUsage()] and
    [this.getNetworkStats()]. *)
Definition getVisionStats (cpu memory network : Settled number)
  : Run MonitoringResponse.t :=
  cpuUsage ← catch cpu (λ err,
    console_error ("Error getting CPU usage: " +:+ err) ;;; mret 0);
  memoryUsage ← catch memory (λ err,
    console_error ("Error getting memory usage: " +:+ err) ;;; mret 0);
  networkRecv ← catch network (λ err,
    console_error ("Error getting network stats: " +:+ err) ;;; mret 0);
  s ← this_stats;
  mret (response s cpuUsage memoryUsage networkRecv).

(** [getVisionStats] on a host. *)
Definition getVisionStats_on (parseFloat : string → number) (h : Host)
  : Run MonitoringResponse.t :=
  getVisionStats (getCPUUsage parseFloat h) (getMemoryUsage h)
    (getNetworkStats parseFloat h).

(** The derived fields of the snapshot on binary64 floats, the numbers of
    JavaScript: the same expressions as in [getVisionStats]. *)
Module Binary64.
Local Open Scope float_scope.

Definition successRate (requestCount errorCount : float) : float :=
  if PrimFloat.eqb requestCount 0
  then 0
  else ((requestCount - errorCount) / requestCount) * 100.

Definition avgLatencyMs (count latency : float) : float :=
  if PrimFloat.eqb count 0 then 0 else latency / count.

(** The numeric fields of [Stats]. *)
Record Counters : Type := {
  requestCount : float;
  errorCount : float;
  totalLatency : float;
  dbQueryCount : float;
  dbErrorCount : float;
  dbTotalLatency : float;
}.

(** The counters the constructor sets. *)
Definition constructor : Counters :=
  {| requestCount := 0; errorCount := 0; totalLatency := 0;
     dbQueryCount := 0; dbErrorCount := 0; dbTotalLatency := 0 |}.

(** VisionRequest request tracking. *)
Definition visionRequest (duration : float) (s : Counters) : Counters :=
  {| requestCount := requestCount s + 1; errorCount := errorCount s;
     totalLatency := totalLatency s + duration;
     dbQueryCount := dbQueryCount s; dbErrorCount := dbErrorCount s;
     dbTotalLatency := dbTotalLatency s |}.

(** VisionDBQuery tracking a database request. *)
Definition visionDBQuery (duration : float) (s : Counters) : Counters :=
  {| requestCount := requestCount s; errorCount := errorCount s;
     totalLatency := totalLatency s;
     dbQueryCount := dbQueryCount s + 1; dbErrorCount := dbErrorCount s;
     dbTotalLatency := dbTotalLatency s + duration |}.


(** The rational number a finite binary64 number stands for; none for the
    infinities and NaN. *)
Definition exact (x : float) : option Q :=
  match Prim2SF x with
  | S754_zero _ => Some 0%Q
  | S754_finite s m e =>
      Some (Qred (inject_Z (cond_Zopp s (Z.pos m)) * Qpower 2 e))%Q
  | S754_infinity _ | S754_nan => None
  end.
End Binary64.

(** ** Callers *)

(** A call of a public method, with what the environment supplies to it. *)
Inductive Call : Type :=
  | CallRequest (duration : number)
  | CallError (now : Date) (err : Error) (method path : option string)
  | CallDBQuery (duration : number)
  | CallDBError
  | CallStats (cpu memory network : Settled number).

Definition call (c : Call) : Run unit :=
  match c with
  | CallRequest duration => visionRequest duration
  | CallError now err method path => visionError now err method path
  | CallDBQuery duration => visionDBQuery duration
  | CallDBError => visionDBError
  | CallStats cpu memory network =>
      getVisionStats cpu memory network ≫= λ _, mret tt
  end.

(** The calls of a list, first to last. *)
Fixpoint calls (cs : list Call) : Run unit :=
  match cs with
  | [] => mret tt
  | c :: cs' => call c ;;; calls cs'
  end.

(** The elements of the error log: the array [this.stats.lastErrors]. *)
Definition error_log (w : World) : option (list ErrorLog) :=
  arrays w !! lastErrors (stats w).

(** What a caller that holds the array at [l] can do to it: any change of
    its elements ([push], [pop], [splice], [length = 0], ...). *)
Definition caller_mutates (l : loc) (f : list ErrorLog → list ErrorLog)
  : Run unit := array_update l f.

(** * What the specification speaks of *)


(** The durations added up one at a time in call order, as [+=] does, from
    the latency [t]. *)
Definition running_sum (t : number) (ds : list number) : number :=
  foldl Qplus t ds.



(** The arguments of one [visionError] call, with the time it is made at. *)
Record ErrorArgs : Type := {
  arg_now : Date;
  arg_err : Error;
  arg_method : option string;
  arg_path : option string;
}.

Definition error_call (e : ErrorArgs) : Call :=
  CallError (arg_now e) (arg_err e) (arg_method e) (arg_path e).

(** The record a [visionError] call is to log: the supplied method and path,
    the empty string for one that is not supplied, and the message of the
    error. *)
Definition logged (e : ErrorArgs) : ErrorLog :=
  {| timestamp := arg_now e;
     method := default EmptyString (arg_method e);
     path := default EmptyString (arg_path e);
     error := message (arg_err e) |}.

(** The [n] most recent elements of a list in chronological order, all of
    them when there are fewer. *)
Definition recent {A} (n : nat) (l : list A) : list A := drop (length l - n) l.

(** The capacity of the log. *)
Definition bounded_log (w : World) : Prop :=
  ∃ log, error_log w = Some log ∧ (length log ≤ 10)%nat.

(** The value of a system metric in the response: the value the query
    resolved with, 0 for a query that was rejected. *)
Definition metric (p : Settled number) : number :=
  match p with
  | Resolved value => value
  | Rejected _ => 0
  end.

(** The line a rejected query leaves on the console. *)
Definition diagnostic (what : string) (p : Settled number) : list string :=
  match p with
  | Resolved _ => []
  | Rejected err => [what +:+ err]
  end.

Definition diagnostics (cpu memory network : Settled number) : list string :=
  diagnostic "Error getting CPU usage: " cpu ++
  diagnostic "Error getting memory usage: " memory ++
  diagnostic "Error getting network stats: " network.

(** The elements a caller finds in the [lastErrors] of a response. *)
Definition returned_log (resp : MonitoringResponse.t) (w : World)
  : option (list ErrorLog) :=
  MonitoringResponse.lastErrors resp ≫= λ l, arrays w !! l.

(** The elements a caller of [getVisionStats] finds in [lastErrors]. *)
Definition snapshot_log (cpu memory network : Settled number) (w : World)
  : option (list ErrorLog) :=
  match eval (getVisionStats cpu memory network) w with
  | Resolved resp =>
      returned_log resp (exec (getVisionStats cpu memory network) w)
  | Rejected _ => None
  end.

(** The returned [lastErrors] is a copy of the log: when the caller of
    [getVisionStats] changes the sequence it was given by [f], the log of
    the aggregator and what later snapshots return stay as they were. *)
Definition lastErrors_is_a_copy (cpu memory network : Settled number)
  (w : World) (f : list ErrorLog → list ErrorLog) : Prop :=
  ∀ resp l,
    eval (getVisionStats cpu memory network) w = Resolved resp →
    MonitoringResponse.lastErrors resp = Some l →
    let w1 := exec (getVisionStats cpu memory network) w in
    let w2 := exec (caller_mutates l f) w1 in
    error_log w2 = error_log w1 ∧
    ∀ cpu' memory' network',
      snapshot_log cpu' memory' network' w2 =
      snapshot_log cpu' memory' network' w1.

(** An entry that no [visionError] call has logged. *)
Definition forged : ErrorLog :=
  {| timestamp := 0%Z; method := "GET"; path := "/"; error := "forged" |}.

(** Ten requests of 5 ms and two errors. *)
Definition ten_requests_two_errors : World :=
  exec (calls (replicate 10 (CallRequest 5) ++
               replicate 2 (CallError 0%Z {| message := "boom" |} None None)))
    new_Vision.

(** Four database queries of 50 ms. *)
Definition four_queries : World :=
  exec (calls (replicate 4 (CallDBQuery 50))) new_Vision.

(** ** What a sequence of calls amounts to *)

(** The durations of the [visionRequest] calls of a sequence, in order. *)
Fixpoint request_durations (cs : list Call) : list number :=
  match cs with
  | [] => []
  | CallRequest duration :: cs' => duration :: request_durations cs'
  | _ :: cs' => request_durations cs'
  end.

(** The durations of its [visionDBQuery] calls, in order. *)
Fixpoint query_durations (cs : list Call) : list number :=
  match cs with
  | [] => []
  | CallDBQuery duration :: cs' => duration :: query_durations cs'
  | _ :: cs' => query_durations cs'
  end.

(** The records of its [visionError] calls, in order. *)
Fixpoint error_records (cs : list Call) : list ErrorLog :=
  match cs with
  | [] => []
  | CallError now err method path :: cs' =>
      logged {| arg_now := now; arg_err := err;
                arg_method := method; arg_path := path |}
      :: error_records cs'
  | _ :: cs' => error_records cs'
  end.

(** The number of its [visionDBError] calls. *)
Fixpoint db_errors (cs : list Call) : nat :=
  match cs with
  | [] => 0
  | CallDBError :: cs' => S (db_errors cs')
  | _ :: cs' => db_errors cs'
  end.

(** The lines its [getVisionStats] calls leave on the console, in order. *)
Fixpoint console_lines (cs : list Call) : list string :=
  match cs with
  | [] => []
  | CallStats cpu memory network :: cs' =>
      diagnostics cpu memory network ++ console_lines cs'
  | _ :: cs' => console_lines cs'
  end.

(** A counter that holds the natural number [n]. *)
Definition count (n : nat) : number := inject_Z (Z.of_nat n).

(** A state whose log holds 11 entries: a caller of [getVisionStats] on a
    new [Vision] has put them in the array it was given. *)
Definition overfull : World :=
  exec (getVisionStats (Resolved 0) (Resolved 0) (Resolved 0) ≫= λ resp,
        match MonitoringResponse.lastErrors resp with
        | Some l => caller_mutates l (λ _, replicate 11 forged)
        | None => mret tt
        end)
    new_Vision.

(** The durations added up in call order, divided by their number; 0 for
    the empty list. *)
Definition running_mean (ds : list number) : number :=
  match ds with
  | [] => 0
  | _ :: _ => running_sum 0 ds / count (length ds)
  end.

(** The share, in percent, of [r] requests that are not among [e] errors,
    0 when there is no request. *)
Definition success_percentage (r e : nat) : number :=
  match r with
  | O => 0
  | S _ => (count r - count e) / count r * 100
  end.

(** A host with 8 units of memory, 2 of them free, on which both commands
    succeed. *)
Definition quiet_host : Host :=
  {| top := {| exec_error := None; stdout := "12.5" |};
     totalmem := 8; freemem := 2;
     ifstat := {| exec_error := None; stdout := "1048576" |} |}.

(** A request, an error, a database query and a database error. *)
Definition one_of_each : list Call :=
  [CallRequest 5; CallError 1%Z {| message := "boom" |} (Some "GET") None;
   CallDBQuery 3; CallDBError].

(** * Properties *)

(** ** Running computations *)

Lemma exec_seq {A} (m : Run unit) (k : Run A) (w : World) :
  eval m w = Resolved tt → exec (m ;;; k) w = exec k (exec m w).
Proof.
  unfold exec, eval, seq, mbind, Run_bind.
  destruct (m w) as [[[]|reason] w']; simpl; [done | discriminate].
Qed.

(** The update operations return normally in every state. *)
Lemma visionRequest_returns duration w :
  eval (visionRequest duration) w = Resolved tt.
Proof. reflexivity. Qed.

Lemma visionError_returns now err method path w :
  eval (visionError now err method path) w = Resolved tt.
Proof.
  unfold visionError, eval, seq, mbind, Run_bind. cbn -[Nat.leb].
  by destruct (10 <=? length _)%nat.
Qed.

Lemma visionDBQuery_returns duration w :
  eval (visionDBQuery duration) w = Resolved tt.
Proof. reflexivity. Qed.

Lemma visionDBError_returns w : eval visionDBError w = Resolved tt.
Proof. reflexivity. Qed.

Lemma call_returns c w : eval (call c) w = Resolved tt.
Proof.
  destruct c as [d|now err m p|d| |cpu mem net]; simpl.
  - apply visionRequest_returns.
  - apply visionError_returns.
  - apply visionDBQuery_returns.
  - apply visionDBError_returns.
  - by destruct cpu, mem, net.
Qed.

Lemma exec_calls_cons c cs w :
  exec (calls (c :: cs)) w = exec (calls cs) (exec (call c) w).
Proof. simpl. apply exec_seq, call_returns. Qed.

Lemma exec_calls_app cs cs' w :
  exec (calls (cs ++ cs')) w = exec (calls cs') (exec (calls cs) w).
Proof.
  revert w. induction cs as [|c cs IH]; intros w; [done|].
  by rewrite <- app_comm_cons, !exec_calls_cons, IH.
Qed.

Lemma exec_calls_snoc cs c w :
  exec (calls (cs ++ [c])) w = exec (call c) (exec (calls cs) w).
Proof. by rewrite exec_calls_app, exec_calls_cons. Qed.

(** ** Counting *)

(** Adding 1 to a counter that holds the integer [n] gives [n + 1]. *)
Lemma increment_inject_Z (n : Z) : inject_Z n + 1 = inject_Z (n + 1).
Proof. unfold Qplus, inject_Z; simpl. by rewrite Z.mul_1_r. Qed.

Lemma inject_Z_length_snoc {A} (l : list A) (x : A) :
  inject_Z (Z.of_nat (length l)) + 1 = inject_Z (Z.of_nat (length (l ++ [x]))).
Proof.
  rewrite increment_inject_Z, length_app; simpl.
  f_equal. lia.
Qed.





(** ** The log of recent errors *)

Lemma or_empty_default (s : option string) : or_empty s = default EmptyString s.
Proof. by destruct s as [[|c s]|]. Qed.

Lemma recent_length {A} (n : nat) (l : list A) :
  length (recent n l) = (length l `min` n)%nat.
Proof. unfold recent. rewrite length_drop. lia. Qed.

Lemma tail_drop {A} (n : nat) (l : list A) : tail (drop n l) = drop (S n) l.
Proof.
  revert l. induction n as [|n IH]; intros [|x l]; by simpl.
Qed.

(** Appending to a log of capacity [n], evicting the oldest element first
    when it is full, keeps the [n] most recent elements. *)
Lemma recent_snoc {A} (n : nat) (l : list A) (x : A) :
  (0 < n)%nat →
  (if (n <=? length (recent n l))%nat then tail (recent n l) else recent n l)
    ++ [x] = recent n (l ++ [x]).
Proof.
  intros Hn. rewrite recent_length. unfold recent.
  rewrite length_app; simpl.
  destruct (Nat.leb_spec n (length l `min` n)) as [Hfull|Hroom].
  - rewrite tail_drop.
    replace (length l + 1 - n)%nat with (S (length l - n)) by lia.
    rewrite drop_app_le by lia. done.
  - replace (length l - n)%nat with 0%nat by lia.
    replace (length l + 1 - n)%nat with 0%nat by lia.
    by rewrite !drop_0.
Qed.

(** What one [visionError] does to the state. *)
Lemma visionError_exec now err method path w :
  exec (visionError now err method path) w =
  let l := lastErrors (stats w) in
  let errLog := {| timestamp := now; method := or_empty method;
                   path := or_empty path; error := message err |} in
  {| arrays :=
       alter (λ a, a ++ [errLog]) l
         (if (10 <=? length (default [] (arrays w !! l)))%nat
          then alter tail l (arrays w) else arrays w);
     stats := set_errorCount (λ n, n + 1) (stats w);
     console := console w |}.
Proof.
  unfold visionError, exec, seq, mbind, Run_bind. cbn -[Nat.leb].
  by destruct (10 <=? length _)%nat.
Qed.

Lemma visionError_error_log now err method path w log :
  error_log w = Some log →
  error_log (exec (visionError now err method path) w) =
  Some ((if (10 <=? length log)%nat then tail log else log)
        ++ [{| timestamp := now; method := or_empty method;
               path := or_empty path; error := message err |}]).
Proof.
  unfold error_log. intros Hlog.
  rewrite visionError_exec; cbn -[Nat.leb]. rewrite Hlog; cbn -[Nat.leb].
  rewrite lookup_alter_eq.
  destruct (10 <=? length log)%nat.
  - by rewrite lookup_alter_eq, Hlog.
  - by rewrite Hlog.
Qed.

Lemma visionError_stats now err method path w :
  stats (exec (visionError now err method path) w) =
  set_errorCount (λ n, n + 1) (stats w).
Proof. by rewrite visionError_exec. Qed.

Lemma constructor_error_log h out : error_log (constructor h out) = Some [].
Proof. unfold error_log, constructor; simpl. apply lookup_insert_eq. Qed.

Lemma error_call_logged (e : ErrorArgs) (w : World) (log : list ErrorLog) :
  error_log w = Some log →
  error_log (exec (call (error_call e)) w) =
  Some ((if (10 <=? length log)%nat then tail log else log) ++ [logged e]).
Proof.
  intros Hlog. unfold error_call, call, logged.
  rewrite (visionError_error_log _ _ _ _ _ _ Hlog).
  by rewrite !or_empty_default.
Qed.

(** After the [visionError] calls [es] on a new [Vision], the counter holds
    their number and the log their 10 most recent records. *)
Lemma visionError_calls h out (es : list ErrorArgs) :
  let w := exec (calls (error_call <$> es)) (constructor h out) in
  errorCount (stats w) = inject_Z (Z.of_nat (length es)) ∧
  error_log w = Some (recent 10 (logged <$> es)).
Proof.
  cbv zeta. induction es as [|e es [IHn IHlog]] using rev_ind.
  - split; [done | apply constructor_error_log].
  - rewrite !fmap_app. change (error_call <$> [e]) with [error_call e].
    change (logged <$> [e]) with [logged e].
    rewrite exec_calls_snoc. split.
    + change (call (error_call e)) with
        (visionError (arg_now e) (arg_err e) (arg_method e) (arg_path e)).
      rewrite visionError_stats. cbn [set_errorCount errorCount].
      rewrite IHn. apply inject_Z_length_snoc.
    + rewrite (error_call_logged _ _ _ IHlog).
      f_equal. apply recent_snoc. lia.
Qed.

(** C2. After every sequence of k [visionError] calls from the freshly
    constructed state, [errorCount] equals k and [lastErrors] holds exactly
    min(k, 10) entries: the records of the most recent calls, oldest first,
    each with the supplied method and path (the empty string for one not
    supplied), the message of the error and the time of the call. *)
Theorem visionError_count_and_log h out (es : list ErrorArgs) :
  let w := exec (calls (error_call <$> es)) (constructor h out) in
  let k := length es in
  errorCount (stats w) = inject_Z (Z.of_nat k) ∧
  ∃ log, error_log w = Some log ∧
    length log = (k `min` 10)%nat ∧
    log = recent 10 (logged <$> es) ∧
    ∀ i, log !! i = logged <$> es !! (k - k `min` 10 + i)%nat.
Proof.
  cbv zeta. destruct (visionError_calls h out es) as [Hn Hlog].
  split; [done|]. eexists; split; [done|].
  split; [|split; [done|]].
  - by rewrite recent_length, length_fmap.
  - intros i. unfold recent. rewrite lookup_drop, length_fmap, list_lookup_fmap.
    do 2 f_equal. lia.
Qed.

(** ** The snapshot *)

(** What [getVisionStats] returns and what it leaves behind. *)
Lemma getVisionStats_run cpu memory network w :
  getVisionStats cpu memory network w =
  (Resolved (response (stats w) (metric cpu) (metric memory) (metric network)),
   {| arrays := arrays w; stats := stats w;
      console := console w ++ diagnostics cpu memory network |}).
Proof.
  destruct w as [a s c].
  destruct cpu, memory, network; unfold diagnostics; simpl;
    cbv [getVisionStats mbind Run_bind catch seq console_error mret Run_ret
         this_stats]; simpl;
    rewrite ?app_nil_r, <- ?app_assoc; reflexivity.
Qed.

Lemma getVisionStats_eval cpu memory network w :
  eval (getVisionStats cpu memory network) w =
  Resolved (response (stats w) (metric cpu) (metric memory) (metric network)).
Proof. unfold eval. by rewrite getVisionStats_run. Qed.

Lemma getVisionStats_exec cpu memory network w :
  exec (getVisionStats cpu memory network) w =
  {| arrays := arrays w; stats := stats w;
     console := console w ++ diagnostics cpu memory network |}.
Proof. unfold exec. by rewrite getVisionStats_run. Qed.

(** The calls other than [visionError] leave the log as it is. *)
Lemma call_error_log c w :
  (∀ now err method path, c ≠ CallError now err method path) →
  error_log (exec (call c) w) = error_log w.
Proof.
  intros Hc. destruct c as [d|now err m p|d| |cpu mem net]; try done.
  - by destruct (Hc now err m p).
  - unfold error_log, exec, call, mbind, Run_bind.
    by rewrite getVisionStats_run.
Qed.

Lemma call_bounded_log c w : bounded_log w → bounded_log (exec (call c) w).
Proof.
  intros (log & Hlog & Hlen).
  destruct c as [d|now err m p|d| |cpu mem net];
    try (exists log; split; [by rewrite call_error_log|done]).
  eexists; split; [by apply visionError_error_log|].
  rewrite length_app.
  destruct (Nat.leb_spec 10 (length log)); [|simpl; lia].
  destruct log; simpl in *; lia.
Qed.

(** C3. The log holds at most 10 entries in the freshly constructed state,
    every operation ([visionRequest], [visionError], [visionDBQuery],
    [visionDBError], [getVisionStats]) keeps it so, and so it holds at most
    10 entries in every state the operations reach. *)
Theorem lastErrors_at_most_10 :
  (∀ h out, bounded_log (constructor h out)) ∧
  (∀ c w, bounded_log w → bounded_log (exec (call c) w)) ∧
  (∀ cs h out, bounded_log (exec (calls cs) (constructor h out))).
Proof.
  assert (Hnew : ∀ h out, bounded_log (constructor h out)).
  { intros h out. exists []. split; [apply constructor_error_log | simpl; lia]. }
  split; [done|]. split; [apply call_bounded_log|].
  intros cs h out. induction cs as [|c cs IH] using rev_ind; [apply Hnew|].
  rewrite exec_calls_snoc. by apply call_bounded_log.
Qed.

(** C8. [visionDBError] adds exactly 1 to [dbErrorCount] and leaves every
    other field of [Stats] as it was; it appends nothing to [lastErrors]. *)
Theorem visionDBError_only_counts w :
  let w' := exec visionDBError w in
  dbErrorCount (stats w') = dbErrorCount (stats w) + 1 ∧
  requestCount (stats w') = requestCount (stats w) ∧
  errorCount (stats w') = errorCount (stats w) ∧
  totalLatency (stats w') = totalLatency (stats w) ∧
  dbQueryCount (stats w') = dbQueryCount (stats w) ∧
  dbTotalLatency (stats w') = dbTotalLatency (stats w) ∧
  lastErrors (stats w') = lastErrors (stats w) ∧
  arrays w' = arrays w ∧
  error_log w' = error_log w.
Proof. by repeat split. Qed.

(** C9. [getVisionStats] is a pure read of the state of the aggregator:
    after the call every field of [Stats], the elements of [lastErrors]
    among them, holds the value it held before. *)
Theorem getVisionStats_reads_only cpu memory network w :
  let w' := exec (getVisionStats cpu memory network) w in
  stats w' = stats w ∧ arrays w' = arrays w ∧ error_log w' = error_log w.
Proof. cbv zeta. unfold error_log. by rewrite getVisionStats_exec. Qed.

(** C10. The response of [getVisionStats] always has its [lastErrors] field:
    it is the error log of the aggregator as it is at the call, also when
    the log is empty, as it is for a new [Vision]. *)
Theorem getVisionStats_lastErrors_present :
  (∀ cpu memory network w,
     ∃ resp l,
       eval (getVisionStats cpu memory network) w = Resolved resp ∧
       MonitoringResponse.lastErrors resp = Some l ∧
       arrays (exec (getVisionStats cpu memory network) w) !! l = error_log w) ∧
  (∀ cpu memory network h out,
     ∃ resp l,
       eval (getVisionStats cpu memory network) (constructor h out)
         = Resolved resp ∧
       MonitoringResponse.lastErrors resp = Some l ∧
       arrays (exec (getVisionStats cpu memory network) (constructor h out)) !! l
         = Some []).
Proof.
  split.
  - intros cpu memory network w. eexists _, _.
    rewrite getVisionStats_eval, getVisionStats_exec.
    split; [done|]. split; done.
  - intros cpu memory network h out. eexists _, _.
    rewrite getVisionStats_eval, getVisionStats_exec.
    split; [done|]. split; [done|]. exact (constructor_error_log h out).
Qed.

(** C5. [getVisionStats] never throws: whatever the three system queries do,
    it returns a complete response.  A query that fails puts 0 in its field
    and a line on the console; each field depends on its own query alone, so
    when exactly one query fails the two others carry the values of the
    provider; the groups computed from the counters do not depend on the
    queries. *)
Theorem getVisionStats_masks_failures :
  (∀ cpu memory network w,
     ∃ resp,
       eval (getVisionStats cpu memory network) w = Resolved resp ∧
       MonitoringResponse.system resp =
         {| System.cpuUsage := metric cpu;
            System.memoryUsage := metric memory;
            System.networkRecv := metric network |} ∧
       console (exec (getVisionStats cpu memory network) w) =
         console w ++ diagnostics cpu memory network ∧
       ∀ cpu' memory' network',
         ∃ resp',
           eval (getVisionStats cpu' memory' network') w = Resolved resp' ∧
           MonitoringResponse.requests resp' = MonitoringResponse.requests resp ∧
           MonitoringResponse.database resp' = MonitoringResponse.database resp ∧
           MonitoringResponse.lastErrors resp' = MonitoringResponse.lastErrors resp) ∧
  (∀ reason m n w,
     ∃ resp,
       eval (getVisionStats (Rejected reason) (Resolved m) (Resolved n)) w
         = Resolved resp ∧
       MonitoringResponse.system resp =
         {| System.cpuUsage := 0; System.memoryUsage := m;
            System.networkRecv := n |} ∧
       console (exec (getVisionStats (Rejected reason) (Resolved m) (Resolved n)) w)
         = console w ++ ["Error getting CPU usage: " +:+ reason]) ∧
  (∀ c reason n w,
     ∃ resp,
       eval (getVisionStats (Resolved c) (Rejected reason) (Resolved n)) w
         = Resolved resp ∧
       MonitoringResponse.system resp =
         {| System.cpuUsage := c; System.memoryUsage := 0;
            System.networkRecv := n |} ∧
       console (exec (getVisionStats (Resolved c) (Rejected reason) (Resolved n)) w)
         = console w ++ ["Error getting memory usage: " +:+ reason]) ∧
  (∀ c m reason w,
     ∃ resp,
       eval (getVisionStats (Resolved c) (Resolved m) (Rejected reason)) w
         = Resolved resp ∧
       MonitoringResponse.system resp =
         {| System.cpuUsage := c; System.memoryUsage := m;
            System.networkRecv := 0 |} ∧
       console (exec (getVisionStats (Resolved c) (Resolved m) (Rejected reason)) w)
         = console w ++ ["Error getting network stats: " +:+ reason]) ∧
  (∀ parseFloat host w,
     ∃ resp, eval (getVisionStats_on parseFloat host) w = Resolved resp).
Proof.
  split; [|split; [|split; [|split]]].
  - intros cpu memory network w. eexists.
    rewrite getVisionStats_eval, getVisionStats_exec.
    split; [done|]. split; [done|]. split; [done|].
    intros cpu' memory' network'. eexists.
    rewrite getVisionStats_eval. by split.
  - intros reason m n w. eexists.
    rewrite getVisionStats_eval, getVisionStats_exec. by split.
  - intros c reason n w. eexists.
    rewrite getVisionStats_eval, getVisionStats_exec. by split.
  - intros c m reason w. eexists.
    rewrite getVisionStats_eval, getVisionStats_exec. by split.
  - intros parseFloat host w. eexists. unfold getVisionStats_on.
    by rewrite getVisionStats_eval.
Qed.

(** ** Rates and averages *)

Lemma strict_eq_true (x y : number) : x == y → strict_eq x y = true.
Proof. apply Qeq_bool_iff. Qed.

Lemma strict_eq_false (x y : number) : ¬ x == y → strict_eq x y = false.
Proof.
  intros Hne. destruct (strict_eq x y) eqn:Heq; [|done].
  by apply Qeq_bool_iff in Heq.
Qed.

(** C4. The [successRate] of the response is 0 when [requestCount] is 0 and
    [(requestCount - errorCount) / requestCount * 100] otherwise; with 10
    requests and 2 errors it is 80, also in binary64 arithmetic. *)
Theorem getVisionStats_successRate cpu memory network w :
  ∃ resp,
    eval (getVisionStats cpu memory network) w = Resolved resp ∧
    let rate := Requests.successRate (MonitoringResponse.requests resp) in
    let n := requestCount (stats w) in
    let e := errorCount (stats w) in
    (n == 0 → rate = 0) ∧
    (¬ n == 0 → rate = (n - e) / n * 100) ∧
    (n == 10 → e == 2 → rate == 80) ∧
    Binary64.successRate 10 2 = 80%float.
Proof.
  eexists. rewrite getVisionStats_eval. split; [done|]. cbn.
  split; [|split; [|split]].
  - intros Hn. by rewrite strict_eq_true.
  - intros Hn. by rewrite strict_eq_false.
  - intros Hn He. rewrite strict_eq_false.
    + rewrite Hn, He. by vm_compute.
    + rewrite Hn. by vm_compute.
  - reflexivity.
Qed.

(** C7. The [avgLatencyMs] of the requests is 0 when [requestCount] is 0 and
    [totalLatency / requestCount] otherwise; that of the database is 0 when
    [dbQueryCount] is 0 and [dbTotalLatency / dbQueryCount] otherwise; with
    4 queries and a total latency of 200 it is 50, also in binary64
    arithmetic. *)
Theorem getVisionStats_avgLatencyMs cpu memory network w :
  ∃ resp,
    eval (getVisionStats cpu memory network) w = Resolved resp ∧
    let avg := Requests.avgLatencyMs (MonitoringResponse.requests resp) in
    let n := requestCount (stats w) in
    let db_avg := Database.avgLatencyMs (MonitoringResponse.database resp) in
    let q := dbQueryCount (stats w) in
    (n == 0 → avg = 0) ∧
    (¬ n == 0 → avg = totalLatency (stats w) / n) ∧
    (q == 0 → db_avg = 0) ∧
    (¬ q == 0 → db_avg = dbTotalLatency (stats w) / q) ∧
    (q == 4 → dbTotalLatency (stats w) == 200 → db_avg == 50) ∧
    Binary64.avgLatencyMs 4 200 = 50%float.
Proof.
  eexists. rewrite getVisionStats_eval. split; [done|]. cbn.
  split; [|split; [|split; [|split; [|split]]]].
  - intros Hn. by rewrite strict_eq_true.
  - intros Hn. by rewrite strict_eq_false.
  - intros Hq. by rewrite strict_eq_true.
  - intros Hq. by rewrite strict_eq_false.
  - intros Hq Ht. rewrite strict_eq_false.
    + rewrite Hq, Ht. by vm_compute.
    + rewrite Hq. by vm_compute.
  - reflexivity.
Qed.

(** ** Who holds the log *)

(** C1, as the specification states it, fails: on a new [Vision], the caller
    of [getVisionStats] pushes an entry on the [lastErrors] it received; the
    entry is then in the log of the aggregator and in the next snapshot. *)
Lemma lastErrors_is_a_copy_fails :
  let snapshot := getVisionStats (Resolved 0) (Resolved 0) (Resolved 0) in
  let push := caller_mutates 1%positive (λ a, a ++ [forged]) in
  eval snapshot new_Vision
    = Resolved (response (stats new_Vision) 0 0 0) ∧
  MonitoringResponse.lastErrors (response (stats new_Vision) 0 0 0)
    = Some 1%positive ∧
  error_log (exec snapshot new_Vision) = Some [] ∧
  error_log (exec push (exec snapshot new_Vision)) = Some [forged] ∧
  snapshot_log (Resolved 0) (Resolved 0) (Resolved 0)
    (exec push (exec snapshot new_Vision)) = Some [forged] ∧
  ¬ lastErrors_is_a_copy (Resolved 0) (Resolved 0) (Resolved 0) new_Vision
      (λ a, a ++ [forged]).
Proof.
  cbv zeta. do 5 (split; [by vm_compute|]).
  intros Hcopy.
  destruct (Hcopy (response (stats new_Vision) 0 0 0) 1%positive) as [Hlog _];
    [by vm_compute..|].
  vm_compute in Hlog. discriminate.
Qed.

(** C1, amended. The [lastErrors] of the response is the array of the
    aggregator itself, not a copy: it holds the elements of the log at the
    call, and a change the caller makes to it is a change of the log of the
    aggregator, which every later snapshot returns. *)
Theorem getVisionStats_lastErrors_is_live cpu memory network w f :
  ∃ resp,
    eval (getVisionStats cpu memory network) w = Resolved resp ∧
    MonitoringResponse.lastErrors resp = Some (lastErrors (stats w)) ∧
    let w1 := exec (getVisionStats cpu memory network) w in
    let w2 := exec (caller_mutates (lastErrors (stats w)) f) w1 in
    returned_log resp w1 = error_log w ∧
    error_log w2 = f <$> error_log w ∧
    ∀ cpu' memory' network',
      snapshot_log cpu' memory' network' w2 = f <$> error_log w.
Proof.
  eexists. rewrite getVisionStats_eval. split; [done|]. split; [done|].
  cbv zeta. rewrite getVisionStats_exec.
  split; [done|]. split.
  - unfold error_log; simpl. apply lookup_alter_eq.
  - intros cpu' memory' network'. unfold snapshot_log.
    rewrite getVisionStats_eval, getVisionStats_exec.
    unfold returned_log, error_log; simpl. apply lookup_alter_eq.
Qed.

(** ** The theorems at concrete states *)

(** The bound is kept by a [visionError] on a new [Vision]. *)
Lemma lastErrors_at_most_10_witness :
  bounded_log new_Vision ∧
  bounded_log
    (exec (call (CallError 0%Z {| message := "boom" |} None None)) new_Vision).
Proof.
  assert (Hnew : bounded_log new_Vision).
  { exists []. split; [reflexivity | simpl; lia]. }
  split; [exact Hnew|].
  exact (proj1 (proj2 lastErrors_at_most_10) _ _ Hnew).
Defined.

(** After ten requests and two errors the success rate is 80. *)
Lemma getVisionStats_successRate_witness :
  ∃ resp,
    eval (getVisionStats (Resolved 0) (Resolved 0) (Resolved 0))
      ten_requests_two_errors = Resolved resp ∧
    Requests.successRate (MonitoringResponse.requests resp) == 80.
Proof.
  destruct (getVisionStats_successRate (Resolved 0) (Resolved 0) (Resolved 0)
              ten_requests_two_errors) as (resp & Hresp & _ & _ & H80 & _).
  exists resp. split; [exact Hresp|].
  apply H80; vm_compute; reflexivity.
Defined.

(** After four queries of 50 ms the average latency of the database is 50. *)
Lemma getVisionStats_avgLatencyMs_witness :
  ∃ resp,
    eval (getVisionStats (Resolved 0) (Resolved 0) (Resolved 0))
      four_queries = Resolved resp ∧
    Database.avgLatencyMs (MonitoringResponse.database resp) == 50.
Proof.
  destruct (getVisionStats_avgLatencyMs (Resolved 0) (Resolved 0) (Resolved 0)
              four_queries) as (resp & Hresp & _ & _ & _ & _ & H50 & _).
  exists resp. split; [exact Hresp|].
  apply H50; vm_compute; reflexivity.
Defined.

(** Twelve errors at times 1 to 12: the log keeps those of times 3 to 12,
    oldest first, and the counter holds 12. *)
Example twelve_errors :
  let w := exec (calls (map (λ t, CallError t {| message := "boom" |}
                                    (Some "GET") None)
                          [1; 2; 3; 4; 5; 6; 7; 8; 9; 10; 11; 12]%Z))
             new_Vision in
  errorCount (stats w) = 12 ∧
  (map timestamp <$> error_log w)
    = Some [3; 4; 5; 6; 7; 8; 9; 10; 11; 12]%Z ∧
  (map method <$> error_log w) = Some (replicate 10 "GET") ∧
  (map path <$> error_log w) = Some (replicate 10 "").
Proof. by vm_compute. Qed.

(** The memory query fails, the two others answer 7 and 3. *)
Example memory_query_fails :
  let m := getVisionStats (Resolved 7) (Rejected "ENOENT") (Resolved 3) in
  eval m ten_requests_two_errors
    = Resolved (response (stats ten_requests_two_errors) 7 0 3) ∧
  console (exec m ten_requests_two_errors)
    = ["Error getting memory usage: ENOENT"].
Proof. by vm_compute. Qed.

(** A host on which [top] fails and [ifstat] prints [1048576]. *)
Example top_fails (parseFloat : string → number) :
  let host := {| top := {| exec_error := Some "Error: Command failed";
                           stdout := "" |};
                 totalmem := 8; freemem := 2;
                 ifstat := {| exec_error := None; stdout := "1048576" |} |} in
  getCPUUsage parseFloat host
    = Rejected "Failed to get CPU usage: Error: Command failed" ∧
  getMemoryUsage host = Resolved ((8 - 2) / 8 * 100) ∧
  getNetworkStats parseFloat host
    = Resolved (parseFloat "1048576" / (1024 * 1024)) ∧
  console (exec (getVisionStats_on parseFloat host) new_Vision)
    = ["Error getting CPU usage: Failed to get CPU usage: Error: Command failed"].
Proof. by repeat split. Qed.

(** * Further properties of the code *)

(** ** The counters under any interleaving of the calls *)

(** What one call does to [this.stats]. *)
Lemma call_stats c w :
  stats (exec (call c) w) =
  match c with
  | CallRequest duration =>
      set_totalLatency (λ t, t + duration)
        (set_requestCount (λ n, n + 1) (stats w))
  | CallError _ _ _ _ => set_errorCount (λ n, n + 1) (stats w)
  | CallDBQuery duration =>
      set_dbTotalLatency (λ t, t + duration)
        (set_dbQueryCount (λ n, n + 1) (stats w))
  | CallDBError => set_dbErrorCount (λ n, n + 1) (stats w)
  | CallStats _ _ _ => stats w
  end.
Proof.
  destruct c as [d|now err m p|d| |cpu mem net]; try reflexivity.
  - apply visionError_stats.
  - unfold exec, call, mbind, Run_bind. by rewrite getVisionStats_run.
Qed.

Lemma count_0 (a : Q) : a == a + count 0.
Proof. unfold count; simpl. ring. Qed.

Lemma count_S (a : Q) (n : nat) : a + 1 + count n == a + count (S n).
Proof.
  unfold count. rewrite Nat2Z.inj_succ, <- Z.add_1_r, inject_Z_plus.
  change (inject_Z 1) with 1. ring.
Qed.

(** X1. Each of the four counters counts the calls of its own method and no
    others, however the calls are interleaved and whatever the state they
    start in. *)
Theorem calls_counters cs w :
  let w' := exec (calls cs) w in
  requestCount (stats w') ==
    requestCount (stats w) + count (length (request_durations cs)) ∧
  errorCount (stats w') ==
    errorCount (stats w) + count (length (error_records cs)) ∧
  dbQueryCount (stats w') ==
    dbQueryCount (stats w) + count (length (query_durations cs)) ∧
  dbErrorCount (stats w') == dbErrorCount (stats w) + count (db_errors cs).
Proof.
  cbv zeta. revert w. induction cs as [|c cs IH]; intros w.
  - repeat split; apply count_0.
  - rewrite exec_calls_cons.
    destruct (IH (exec (call c) w)) as (Hr & He & Hq & Hd).
    rewrite Hr, He, Hq, Hd, call_stats.
    destruct c; cbn [request_durations error_records query_durations db_errors
                     length set_requestCount set_totalLatency set_errorCount
                     set_dbQueryCount set_dbTotalLatency set_dbErrorCount
                     requestCount errorCount dbQueryCount dbErrorCount];
      repeat split; first [reflexivity | apply count_S].
Qed.

(** X2. After any calls, [totalLatency] is what it was with the durations of
    the [visionRequest] calls added to it one at a time in call order, and
    [dbTotalLatency] likewise with those of the [visionDBQuery] calls; no
    other call touches them. *)
Theorem calls_latencies cs w :
  let w' := exec (calls cs) w in
  totalLatency (stats w') =
    running_sum (totalLatency (stats w)) (request_durations cs) ∧
  dbTotalLatency (stats w') =
    running_sum (dbTotalLatency (stats w)) (query_durations cs).
Proof.
  cbv zeta. revert w. induction cs as [|c cs IH]; intros w; [done|].
  rewrite exec_calls_cons.
  destruct (IH (exec (call c) w)) as (Hr & Hq).
  rewrite Hr, Hq, call_stats. by destruct c.
Qed.

(** ** The log under any interleaving of the calls *)

Lemma call_lastErrors c w :
  lastErrors (stats (exec (call c) w)) = lastErrors (stats w).
Proof. rewrite call_stats. by destruct c. Qed.

Lemma calls_lastErrors cs w :
  lastErrors (stats (exec (calls cs) w)) = lastErrors (stats w).
Proof.
  revert w. induction cs as [|c cs IH]; intros w; [done|].
  by rewrite exec_calls_cons, IH, call_lastErrors.
Qed.

(** What one call does to the log. *)
Lemma call_log c w log :
  error_log w = Some log →
  error_log (exec (call c) w) =
  Some (match error_records [c] with
        | x :: _ => (if (10 <=? length log)%nat then tail log else log) ++ [x]
        | [] => log
        end).
Proof.
  intros Hlog.
  destruct c as [d|now err m p|d| |cpu mem net];
    try (by rewrite call_error_log).
  exact (error_call_logged
           {| arg_now := now; arg_err := err; arg_method := m; arg_path := p |}
           w log Hlog).
Qed.

Lemma recent_all {A} (n : nat) (l : list A) :
  (length l ≤ n)%nat → recent n l = l.
Proof. intros Hn. unfold recent. by replace (length l - n)%nat with 0%nat by lia. Qed.

(** Evicting and appending first, then keeping the most recent elements of
    what follows, keeps the most recent elements of the whole. *)
Lemma recent_push {A} (log : list A) (x : A) (rest : list A) :
  let log' := (if (10 <=? length log)%nat then tail log else log) ++ [x] in
  recent (length log' `max` 10) (log' ++ rest) =
  recent (length log `max` 10) (log ++ x :: rest).
Proof.
  cbv zeta. destruct (Nat.leb_spec 10 (length log)) as [Hfull|Hroom].
  - destruct log as [|a log]; [simpl in Hfull; lia|].
    unfold recent. cbn [tail]. rewrite <- app_assoc. cbn [app].
    rewrite !length_app. cbn [length] in *. rewrite ?length_app. cbn [length].
    replace (length log + S (length rest) - (length log + 1) `max` 10)%nat
      with (length rest) by lia.
    replace (S (length log + S (length rest)) - S (length log) `max` 10)%nat
      with (S (length rest)) by lia.
    done.
  - rewrite <- app_assoc; simpl. rewrite length_app; simpl.
    by replace ((length log + 1) `max` 10)%nat
      with (length log `max` 10)%nat by lia.
Qed.

(** X3. After any calls, from any state, the log holds the most recent
    entries of what it held followed by the records of the [visionError]
    calls, in order: the 10 most recent, or as many as it held at the start
    when that was more. *)
Theorem calls_error_log cs w log :
  error_log w = Some log →
  error_log (exec (calls cs) w) =
  Some (recent (length log `max` 10) (log ++ error_records cs)).
Proof.
  revert w log. induction cs as [|c cs IH]; intros w log Hlog.
  - simpl. rewrite app_nil_r, recent_all by lia. exact Hlog.
  - rewrite exec_calls_cons.
    rewrite (IH _ _ (call_log c w log Hlog)).
    destruct c as [d|now err m p|d| |cpu mem net]; try done.
    f_equal. apply recent_push.
Qed.

(** X4. The log is never cut back: when it holds 10 entries or more, however
    it came to, every later sequence of calls leaves it with as many; a log
    that a caller has filled beyond 10 stays beyond 10. *)
Theorem full_log_keeps_its_length cs w log :
  error_log w = Some log →
  (10 ≤ length log)%nat →
  ∃ log', error_log (exec (calls cs) w) = Some log' ∧ length log' = length log.
Proof.
  intros Hlog Hfull. eexists. split; [by apply calls_error_log|].
  rewrite recent_length, length_app. lia.
Qed.

(** X5. The [lastErrors] of a response is no record of the moment of the
    call: after any later calls it shows what the log holds then. *)
Theorem earlier_response_shows_later_errors cpu memory network w cs :
  ∃ resp,
    eval (getVisionStats cpu memory network) w = Resolved resp ∧
    let w' := exec (calls cs) (exec (getVisionStats cpu memory network) w) in
    returned_log resp w' = error_log w'.
Proof.
  eexists. rewrite getVisionStats_eval. split; [done|]. cbv zeta.
  unfold returned_log, error_log; simpl.
  by rewrite calls_lastErrors, getVisionStats_exec.
Qed.

(** ** The store *)

(** A call writes no array but the one of the log. *)
Lemma call_arrays_frame c w l :
  l ≠ lastErrors (stats w) → arrays (exec (call c) w) !! l = arrays w !! l.
Proof.
  intros Hl. destruct c as [d|now err m p|d| |cpu mem net]; try done.
  - unfold call. rewrite visionError_exec; cbn -[Nat.leb].
    rewrite lookup_alter_ne by done.
    destruct (10 <=? _)%nat; [by rewrite lookup_alter_ne|done].
  - unfold exec, call, mbind, Run_bind. by rewrite getVisionStats_run.
Qed.

Lemma calls_arrays_frame cs w l :
  l ≠ lastErrors (stats w) → arrays (exec (calls cs) w) !! l = arrays w !! l.
Proof.
  revert w. induction cs as [|c cs IH]; intros w Hl; [done|].
  rewrite exec_calls_cons, IH by by rewrite call_lastErrors.
  by apply call_arrays_frame.
Qed.

(** X6. Two [Vision] objects do not share a log: the constructor gives the
    new object an array of its own, and no call on the new object changes
    the log of the one that was there. *)
Theorem second_Vision_has_its_own_log w out cs :
  is_Some (error_log w) →
  let w2 := constructor (arrays w) out in
  lastErrors (stats w2) ≠ lastErrors (stats w) ∧
  error_log w2 = Some [] ∧
  arrays (exec (calls cs) w2) !! lastErrors (stats w) = error_log w.
Proof.
  intros Hlog. cbv zeta.
  assert (Hne : lastErrors (stats (constructor (arrays w) out))
                ≠ lastErrors (stats w)).
  { simpl. intros Heq. apply (is_fresh (dom (arrays w))).
    rewrite Heq. by apply elem_of_dom. }
  split; [done|]. split; [apply constructor_error_log|].
  rewrite calls_arrays_frame by done.
  unfold constructor; simpl. by rewrite lookup_insert_ne.
Qed.

(** ** The console *)

Lemma call_console c w :
  console (exec (call c) w) = console w ++ console_lines [c].
Proof.
  destruct c as [d|now err m p|d| |cpu mem net]; simpl;
    rewrite ?app_nil_r; try done.
  - change (console (exec (visionError now err m p) w) = console w).
    by rewrite visionError_exec.
  - unfold exec, mbind, Run_bind. by rewrite getVisionStats_run.
Qed.

(** X7. The only lines the class prints are those of failed system queries:
    after any calls the console holds, after what it held, one line for each
    rejected query of each [getVisionStats], in order; the update operations
    print nothing. *)
Theorem calls_console cs w :
  console (exec (calls cs) w) = console w ++ console_lines cs.
Proof.
  revert w. induction cs as [|c cs IH]; intros w.
  - by rewrite app_nil_r.
  - rewrite exec_calls_cons, IH, call_console, <- app_assoc. f_equal.
    destruct c; simpl; by rewrite ?app_nil_r.
Qed.

(** ** The system queries on a host *)

(** X8. On a host, the memory query never fails: [getVisionStats] reports the
    used share of the memory and never prints a line about memory.  The CPU
    and network fields hold what [parseFloat] reads in the output of the
    command, the network one divided by 1024 * 1024, or 0 with one console
    line when [exec] reports an error. *)
Theorem getVisionStats_on_host parseFloat host w :
  ∃ resp,
    eval (getVisionStats_on parseFloat host) w = Resolved resp ∧
    System.cpuUsage (MonitoringResponse.system resp) =
      match exec_error (top host) with
      | None => parseFloat (stdout (top host))
      | Some _ => 0
      end ∧
    System.memoryUsage (MonitoringResponse.system resp) =
      (totalmem host - freemem host) / totalmem host * 100 ∧
    System.networkRecv (MonitoringResponse.system resp) =
      match exec_error (ifstat host) with
      | None => parseFloat (stdout (ifstat host)) / (1024 * 1024)
      | Some _ => 0
      end ∧
    console (exec (getVisionStats_on parseFloat host) w) =
      console w ++
      match exec_error (top host) with
      | None => []
      | Some e =>
          ["Error getting CPU usage: " +:+ ("Failed to get CPU usage: " +:+ e)]
      end ++
      match exec_error (ifstat host) with
      | None => []
      | Some e =>
          ["Error getting network stats: "
             +:+ ("Failed to get network stats: " +:+ e)]
      end.
Proof.
  eexists. unfold getVisionStats_on.
  rewrite getVisionStats_eval, getVisionStats_exec.
  unfold getCPUUsage, getNetworkStats, getMemoryUsage, diagnostics.
  split; [done|].
  destruct (exec_error (top host)), (exec_error (ifstat host)); by repeat split.
Qed.

Lemma used_share (t f : Q) :
  0 < t → 0 <= f → f <= t →
  0 <= (t - f) / t * 100 ∧ (t - f) / t * 100 <= 100.
Proof.
  intros Ht Hf Hft.
  assert (Hq : (t - f) / t * t == t - f) by (field; lra).
  set (q := (t - f) / t) in *. clearbody q. split; nra.
Qed.

(** X9. When the host has memory and no more of it free than it has,
    [getMemoryUsage] resolves with a percentage: a number from 0 to 100. *)
Theorem getMemoryUsage_is_a_percentage host :
  0 < totalmem host →
  0 <= freemem host →
  freemem host <= totalmem host →
  ∃ usage, getMemoryUsage host = Resolved usage ∧ 0 <= usage ∧ usage <= 100.
Proof.
  intros Ht Hf Hft. eexists. split; [done|]. by apply used_share.
Qed.

(** ** Snapshots of a new [Vision] after any calls *)

Lemma count_nonneg (n : nat) : 0 <= count n.
Proof.
  unfold count. change 0 with (inject_Z 0). rewrite <- Zle_Qle. lia.
Qed.

Lemma count_pos (n : nat) : 0 < count (S n).
Proof.
  unfold count. change 0 with (inject_Z 0). rewrite <- Zlt_Qlt. lia.
Qed.

Lemma count_lt (a b : nat) : count a < count b ↔ (a < b)%nat.
Proof. unfold count. rewrite <- Zlt_Qlt. lia. Qed.

Lemma count_eq_0 (n : nat) : count n == 0 ↔ n = 0%nat.
Proof.
  unfold count. change 0 with (inject_Z 0). rewrite inject_Z_injective. lia.
Qed.

(** The counters and latencies of a new [Vision] after the calls [cs]. *)
Lemma constructor_calls cs h out :
  let s := stats (exec (calls cs) (constructor h out)) in
  requestCount s == count (length (request_durations cs)) ∧
  errorCount s == count (length (error_records cs)) ∧
  totalLatency s = running_sum 0 (request_durations cs) ∧
  dbQueryCount s == count (length (query_durations cs)) ∧
  dbErrorCount s == count (db_errors cs) ∧
  dbTotalLatency s = running_sum 0 (query_durations cs).
Proof.
  cbv zeta.
  destruct (calls_counters cs (constructor h out)) as (Hr & He & Hq & Hd).
  destruct (calls_latencies cs (constructor h out)) as (Ht & Hdt).
  cbv zeta in *. simpl in Hr, He, Hq, Hd.
  rewrite Hr, He, Hq, Hd.
  repeat split; first [apply Qplus_0_l | exact Ht | exact Hdt].
Qed.

(** X10. A snapshot of a new [Vision] after any calls reports the number of
    calls of each kind: requests, errors, database queries and database
    errors. *)
Theorem snapshot_totals cs h out cpu memory network :
  ∃ resp,
    eval (getVisionStats cpu memory network)
      (exec (calls cs) (constructor h out)) = Resolved resp ∧
    Requests.total (MonitoringResponse.requests resp)
      == count (length (request_durations cs)) ∧
    Requests.errors (MonitoringResponse.requests resp)
      == count (length (error_records cs)) ∧
    Database.totalQueries (MonitoringResponse.database resp)
      == count (length (query_durations cs)) ∧
    Database.errors (MonitoringResponse.database resp)
      == count (db_errors cs).
Proof.
  eexists. rewrite getVisionStats_eval. split; [done|].
  destruct (constructor_calls cs h out) as (Hr & He & _ & Hq & Hd & _).
  by repeat split.
Qed.

Lemma strict_eq_count_S (x : number) (n : nat) :
  x == count (S n) → strict_eq x 0 = false.
Proof.
  intros Hx. apply strict_eq_false. rewrite Hx, count_eq_0. lia.
Qed.

Lemma average_is_running_mean (n total : number) (ds : list number) :
  n == count (length ds) → total = running_sum 0 ds →
  (if strict_eq n 0 then 0 else total / n) == running_mean ds.
Proof.
  intros Hn ->. destruct ds as [|d ds].
  - rewrite strict_eq_true by done. reflexivity.
  - rewrite (strict_eq_count_S _ _ Hn). unfold running_mean. by rewrite Hn.
Qed.

(** X11. In a snapshot of a new [Vision] after any calls, the average latency
    of the requests is the durations given to [visionRequest], added up one
    at a time in call order, divided by the number of these calls, and that
    of the database is the same for [visionDBQuery]; each is 0 when there
    was no such call. *)
Theorem snapshot_averages cs h out cpu memory network :
  ∃ resp,
    eval (getVisionStats cpu memory network)
      (exec (calls cs) (constructor h out)) = Resolved resp ∧
    Requests.avgLatencyMs (MonitoringResponse.requests resp)
      == running_mean (request_durations cs) ∧
    Database.avgLatencyMs (MonitoringResponse.database resp)
      == running_mean (query_durations cs).
Proof.
  eexists. rewrite getVisionStats_eval. split; [done|].
  destruct (constructor_calls cs h out) as (Hr & _ & Ht & Hq & _ & Hdt).
  split; by apply average_is_running_mean.
Qed.

Lemma ratio_le_100 (a b : Q) : 0 < a → 0 <= b → (a - b) / a * 100 <= 100.
Proof.
  intros Ha Hb.
  assert (Hq : (a - b) / a * a == a - b) by (field; lra).
  set (q := (a - b) / a) in *. clearbody q. nra.
Qed.

Lemma ratio_negative (a b : Q) : 0 < a → (a - b) / a * 100 < 0 ↔ a < b.
Proof.
  intros Ha.
  assert (Hq : (a - b) / a * a == a - b) by (field; lra).
  set (q := (a - b) / a) in *. clearbody q. split; intros H; nra.
Qed.

Lemma ratio_is_100 (a b : Q) : 0 < a → (a - b) / a * 100 == 100 ↔ b == 0.
Proof.
  intros Ha.
  assert (Hq : (a - b) / a * a == a - b) by (field; lra).
  set (q := (a - b) / a) in *. clearbody q. split; intros H; nra.
Qed.

Lemma success_percentage_le_100 r e : success_percentage r e <= 100.
Proof.
  destruct r as [|r]; simpl; [lra|].
  apply ratio_le_100; [apply count_pos | apply count_nonneg].
Qed.

Lemma success_percentage_negative r e :
  success_percentage r e < 0 ↔ (0 < r < e)%nat.
Proof.
  destruct r as [|r]; simpl.
  - split; [lra | lia].
  - rewrite ratio_negative by apply count_pos. rewrite count_lt. lia.
Qed.

Lemma success_percentage_is_100 r e :
  success_percentage r e == 100 ↔ (0 < r)%nat ∧ e = 0%nat.
Proof.
  destruct r as [|r]; simpl.
  - split; [lra | lia].
  - rewrite ratio_is_100 by apply count_pos. rewrite count_eq_0. lia.
Qed.

Lemma rate_is_success_percentage (n k : number) (r e : nat) :
  n == count r → k == count e →
  (if strict_eq n 0 then 0 else (n - k) / n * 100) == success_percentage r e.
Proof.
  intros Hn Hk. destruct r as [|r].
  - rewrite strict_eq_true by done. reflexivity.
  - rewrite (strict_eq_count_S _ _ Hn). unfold success_percentage.
    by rewrite Hn, Hk.
Qed.

(** X12. In a snapshot of a new [Vision] after r requests and e errors, in
    any order and among any other calls, the success rate is 0 when r is 0
    and (r - e) / r * 100 otherwise.  It is never above 100, it is 100
    exactly when there are requests and no error, and it is negative exactly
    when there are requests and more errors than requests: nothing ties the
    two counters together. *)
Theorem snapshot_successRate cs h out cpu memory network :
  ∃ resp,
    eval (getVisionStats cpu memory network)
      (exec (calls cs) (constructor h out)) = Resolved resp ∧
    let rate := Requests.successRate (MonitoringResponse.requests resp) in
    let r := length (request_durations cs) in
    let e := length (error_records cs) in
    rate == success_percentage r e ∧
    rate <= 100 ∧
    (rate == 100 ↔ (0 < r)%nat ∧ e = 0%nat) ∧
    (rate < 0 ↔ (0 < r < e)%nat).
Proof.
  eexists. rewrite getVisionStats_eval. split; [done|]. cbv zeta.
  destruct (constructor_calls cs h out) as (Hr & He & _).
  pose proof (rate_is_success_percentage _ _ _ _ Hr He) as Hrate.
  split; [exact Hrate|].
  cbn [response MonitoringResponse.requests Requests.successRate].
  rewrite Hrate.
  split; [apply success_percentage_le_100|].
  split; [apply success_percentage_is_100 | apply success_percentage_negative].
Qed.

(** ** Counters only grow *)

Lemma le_add_count (a a' : Q) (n : nat) : a' == a + count n → a <= a'.
Proof. intros Ha. pose proof (count_nonneg n). lra. Qed.

(** X13. No call lowers or resets a counter: after any calls each of the
    four counters is at least what it was. *)
Theorem counters_never_decrease cs w :
  let w' := exec (calls cs) w in
  requestCount (stats w) <= requestCount (stats w') ∧
  errorCount (stats w) <= errorCount (stats w') ∧
  dbQueryCount (stats w) <= dbQueryCount (stats w') ∧
  dbErrorCount (stats w) <= dbErrorCount (stats w').
Proof.
  cbv zeta. destruct (calls_counters cs w) as (Hr & He & Hq & Hd).
  repeat split; eapply le_add_count; eassumption.
Qed.

Lemma running_sum_grows (t : Q) (ds : list number) :
  Forall (λ d, 0 <= d) ds → t <= running_sum t ds.
Proof.
  intros Hds. revert t. induction Hds as [|d ds Hd _ IH]; intros t.
  - apply Qle_refl.
  - change (t <= running_sum (t + d) ds).
    apply Qle_trans with (t + d); [lra | apply IH].
Qed.

Lemma request_durations_app cs cs' :
  request_durations (cs ++ cs') = request_durations cs ++ request_durations cs'.
Proof.
  induction cs as [|c cs IH]; [done|]. destruct c; simpl; by rewrite IH.
Qed.

Lemma query_durations_app cs cs' :
  query_durations (cs ++ cs') = query_durations cs ++ query_durations cs'.
Proof.
  induction cs as [|c cs IH]; [done|]. destruct c; simpl; by rewrite IH.
Qed.

Lemma first_average_negative (d : Q) :
  d < 0 → (if strict_eq (0 + 1) 0 then 0 else (0 + d) / (0 + 1)) < 0.
Proof.
  intros Hd. change ((0 + d) / (0 + 1) < 0).
  assert (Hq : (0 + d) / (0 + 1) == d) by field. by rewrite Hq.
Qed.

(** X14. The durations are not checked.  On a new [Vision], as long as those
    given to [visionRequest] and [visionDBQuery] are not negative, the two
    latencies are not negative and never decrease from one call to the
    next; a negative duration given to the first [visionRequest] makes the
    reported average latency negative. *)
Theorem latencies_follow_the_durations :
  (∀ cs cs' h out,
     Forall (λ d, 0 <= d) (request_durations (cs ++ cs')) →
     Forall (λ d, 0 <= d) (query_durations (cs ++ cs')) →
     let s := stats (exec (calls cs) (constructor h out)) in
     let s' := stats (exec (calls (cs ++ cs')) (constructor h out)) in
     0 <= totalLatency s ∧ totalLatency s <= totalLatency s' ∧
     0 <= dbTotalLatency s ∧ dbTotalLatency s <= dbTotalLatency s') ∧
  (∀ d h out cpu memory network,
     d < 0 →
     ∃ resp,
       eval (getVisionStats cpu memory network)
         (exec (visionRequest d) (constructor h out)) = Resolved resp ∧
       Requests.avgLatencyMs (MonitoringResponse.requests resp) < 0).
Proof.
  split.
  - intros cs cs' h out Hr Hq. cbv zeta.
    rewrite request_durations_app in Hr. rewrite query_durations_app in Hq.
    apply Forall_app in Hr as [Hr Hr']. apply Forall_app in Hq as [Hq Hq'].
    destruct (constructor_calls cs h out) as (_ & _ & Ht & _ & _ & Hdt).
    destruct (calls_latencies cs' (exec (calls cs) (constructor h out)))
      as (Ht' & Hdt').
    rewrite exec_calls_app. cbv zeta in *. rewrite Ht', Hdt'.
    split; [rewrite Ht; by apply (running_sum_grows 0)|].
    split; [by apply running_sum_grows|].
    split; [rewrite Hdt; by apply (running_sum_grows 0)|].
    by apply running_sum_grows.
  - intros d h out cpu memory network Hd. eexists.
    rewrite getVisionStats_eval. split; [done|].
    by apply first_average_negative.
Qed.

(** ** The further theorems at concrete states *)

(** On a new [Vision], whose log is empty. *)
Lemma calls_error_log_witness :
  error_log (exec (calls one_of_each) new_Vision) =
  Some (recent (length (@nil ErrorLog) `max` 10)
          ([] ++ error_records one_of_each)).
Proof. apply calls_error_log. reflexivity. Defined.

(** On a log of 11 entries. *)
Lemma full_log_keeps_its_length_witness :
  ∃ log', error_log (exec (calls one_of_each) overfull) = Some log' ∧
          length log' = length (replicate 11 forged).
Proof.
  apply full_log_keeps_its_length; [reflexivity | simpl; lia].
Defined.

(** A second [Vision] beside a new one. *)
Lemma second_Vision_has_its_own_log_witness :
  let w2 := constructor (arrays new_Vision) [] in
  lastErrors (stats w2) ≠ lastErrors (stats new_Vision) ∧
  error_log w2 = Some [] ∧
  arrays (exec (calls one_of_each) w2) !! lastErrors (stats new_Vision)
    = error_log new_Vision.
Proof.
  apply second_Vision_has_its_own_log. exists []. reflexivity.
Defined.

Lemma getMemoryUsage_is_a_percentage_witness :
  ∃ usage,
    getMemoryUsage quiet_host = Resolved usage ∧ 0 <= usage ∧ usage <= 100.
Proof.
  apply getMemoryUsage_is_a_percentage; simpl; lra.
Defined.

(** One call of each kind, then one more of each kind; and a first request
    of -3 ms. *)
Lemma latencies_follow_the_durations_witness :
  (let s := stats (exec (calls one_of_each) new_Vision) in
   let s' := stats (exec (calls (one_of_each ++ one_of_each)) new_Vision) in
   0 <= totalLatency s ∧ totalLatency s <= totalLatency s' ∧
   0 <= dbTotalLatency s ∧ dbTotalLatency s <= dbTotalLatency s') ∧
  ∃ resp,
    eval (getVisionStats (Resolved 0) (Resolved 0) (Resolved 0))
      (exec (visionRequest (-3)) new_Vision) = Resolved resp ∧
    Requests.avgLatencyMs (MonitoringResponse.requests resp) < 0.
Proof.
  split.
  - apply (proj1 latencies_follow_the_durations); simpl;
      repeat (constructor; [lra|]); constructor.
  - apply (proj2 latencies_follow_the_durations). lra.
Defined.
